(** * HomeScreen of the task-list application

    A shallow embedding of [src/screens/HomeScreen.tsx] and of the route
    table of [navigation/AppNavigator].  The React component is modelled as

    - a pure render function from the component state to a view tree
      ([TaskCard], [FlatList], [HomeScreen]), and
    - a transition function [step] on the component state together with the
      observable effects of the screen (GET requests issued, requests still
      pending, alerts shown, navigation calls made).

    State updates made by one handler run are applied atomically.  The
    screen is the root of the stack and stays mounted, so unmounting is not
    part of the model.  What the platform decides (when a promise settles,
    when the screen regains focus, what the user types or presses) is an
    [Event].  Two libraries decide part of what the user sees: axios decides
    which replies reject ([axios_settles]), and the virtualised list decides
    which of its cells are mounted ([mounted], with the window as a
    parameter). *)

From Stdlib Require Import String Ascii List ZArith Bool Lia PeanoNat.
Import ListNotations.
Open Scope string_scope.

(** ** The fragment of JavaScript the component relies on *)

Module JS.

(** The values that [isOverdue] can take. *)
Inductive value : Type :=
| undefined
| str (s : string)
| boolean (b : bool).

Definition ToBoolean (v : value) : bool :=
  match v with
  | undefined => false
  | str s => negb (s =? EmptyString)
  | boolean b => b
  end.

(** [a && b] *)
Definition and (a b : value) : value :=
  if ToBoolean a then b else a.

(** [!a] *)
Definition not (a : value) : value :=
  boolean (negb (ToBoolean a)).

(** An optional string property: a missing property reads [undefined]. *)
Definition prop (o : option string) : value :=
  match o with
  | None => undefined
  | Some s => str s
  end.

(** A time value: [None] is the NaN of an invalid date. *)
Definition time := option Z.

(** [a < b] on two dates: either side NaN gives false. *)
Definition lt (a b : time) : value :=
  match a, b with
  | Some x, Some y => boolean (x <? y)%Z
  | _, _ => boolean false
  end.

(** The host's date functions.  [Date_parse s] is the time value of
    [new Date(s)]; [toLocaleDateString d] is
    [d.toLocaleDateString('tr-TR', { day: '2-digit', month: 'short',
    year: 'numeric' })].  The empty string is not a date. *)
Class Date : Type := {
  Date_parse : string -> time;
  toLocaleDateString : time -> string;
  Date_parse_empty : Date_parse EmptyString = None
}.

End JS.

(** ** Constants and the task record *)

Module Theme.
Definition text := "#1F2937".
Definition primary := "#2563EB".
Definition success := "#10B981".
Definition secondary := "#F3F4F6".
Definition background := "#FFFFFF".
Definition danger := "#EF4444".
Definition API_URL := "http://10.0.2.2:3000/api/tasks".
End Theme.

Record Task : Type := {
  id : string;
  title : string;
  dueDate : option string;
  completed : bool
}.

(** ** Navigation: the route table of AppNavigator *)

Module AppNavigator.

Inductive RouteName : Type := home | add | detail.

Inductive FieldType : Type := TString.

(** The type of a route's parameters: [undefined] or an object type. *)
Inductive ParamType : Type :=
| TUndefined
| TObject (fields : list (string * FieldType)).

Definition RootStackParamList (r : RouteName) : ParamType :=
  match r with
  | home => TUndefined
  | add => TUndefined
  | detail => TObject [("taskId", TString)]
  end.

Definition initialRouteName : RouteName := home.

(** A call [navigation.navigate(name, params)]; [params] is [None] when
    the second argument is not passed. *)
Record NavCall : Type := {
  nav_name : RouteName;
  nav_params : option (list (string * string))
}.

Definition navigate (name : RouteName)
    (params : option (list (string * string))) : NavCall :=
  {| nav_name := name; nav_params := params |}.

Fixpoint same_keys (fields : list (string * FieldType))
    (ps : list (string * string)) : bool :=
  match fields, ps with
  | [], [] => true
  | (k, TString) :: fields', (k', _) :: ps' =>
      (k =? k') && same_keys fields' ps'
  | _, _ => false
  end.

(** The parameters of a call have the type the table gives its route. *)
Definition conforms (c : NavCall) : bool :=
  match RootStackParamList (nav_name c), nav_params c with
  | TUndefined, None => true
  | TObject fields, Some ps => same_keys fields ps
  | _, _ => false
  end.

End AppNavigator.

(** ** Styles *)

Definition Style := list (string * string).

Fixpoint style_get (p : string) (s : Style) : option string :=
  match s with
  | [] => None
  | (k, v) :: rest => if k =? p then Some v else style_get p rest
  end.

(** [c && s] inside a style array: a falsy entry is skipped. *)
Definition style_when (c : JS.value) (s : Style) : option Style :=
  if JS.ToBoolean c then Some s else None.

(** The value of property [p] under a style array: later entries win. *)
Fixpoint style_resolve (p : string) (entries : list (option Style))
  : option string :=
  match entries with
  | [] => None
  | e :: rest =>
      match style_resolve p rest with
      | Some v => Some v
      | None =>
          match e with
          | Some s => style_get p s
          | None => None
          end
      end
  end.

Module styles.
Definition cardTitle : Style :=
  [("fontSize", "17"); ("fontWeight", "600"); ("color", Theme.text)].
Definition cardTitleCompleted : Style :=
  [("textDecorationLine", "line-through"); ("color", "#9CA3AF")].
Definition cardDate : Style :=
  [("fontSize", "13"); ("color", Theme.text); ("marginTop", "4")].
End styles.

(** ** Views *)

(** What a press can trigger. *)
Inductive Action : Type :=
| DoNavigate (c : AppNavigator.NavCall)
| DoFetch (searchQuery : string).

Record TaskCardView : Type := {
  card_onPress : Action;
  icon_name : string;
  icon_color : string;
  title_text : string;
  title_style : list (option Style);
  date_text : string;
  date_style : list (option Style)
}.

(** A list as the screen configures it.  [cells] holds, for every element
    of [data] in order, the row [renderItem] draws for it.  The list is
    virtualised: which of these cells are mounted at a given moment is its
    own business, see [mounted]. *)
Record FlatListView : Type := {
  cells : list TaskCardView;
  empty_component : option string;
  refreshing : bool;
  onRefresh : Action
}.

Inductive Content : Type :=
| ActivityIndicator (color : string)
| FlatListOf (l : FlatListView).

Record HomeScreenView : Type := {
  header_title : string;
  search_placeholder : string;
  content : Content;
  fab_icon : string;
  fab_action : Action
}.

(** The list component: one cell per element of [data], in order, and the
    empty component exactly when [data] is empty. *)
Definition FlatList (data : list Task) (renderItem : Task -> TaskCardView)
    (ListEmptyComponent : string) (refreshing : bool) (onRefresh : Action)
  : FlatListView :=
  {| cells := map renderItem data;
     empty_component :=
       match data with
       | [] => Some ListEmptyComponent
       | _ :: _ => None
       end;
     refreshing := refreshing;
     onRefresh := onRefresh |}.

(** The rows a list has mounted when its window covers the indices
    [window]: the cells at those indices, where there is one. *)
Definition mounted (window : list nat) (l : FlatListView)
  : list TaskCardView :=
  flat_map (fun i =>
              match nth_error (cells l) i with
              | Some c => [c]
              | None => []
              end) window.

(** The screen does not pass [initialNumToRender], so the list's default
    applies: its first render mounts the first ten cells. *)
Definition initialNumToRender : nat := 10.

Definition first_batch : list nat := seq 0 initialNumToRender.

Definition navigateToDetail (taskId : string) : Action :=
  DoNavigate (AppNavigator.navigate AppNavigator.detail
                (Some [("taskId", taskId)])).

(** ** Component state: the three [useState] cells *)

Record State : Type := {
  tasks : list Task;
  loading : bool;
  searchTerm : string
}.

Definition setTasks (v : list Task) (s : State) : State :=
  {| tasks := v; loading := loading s; searchTerm := searchTerm s |}.

Definition setLoading (v : bool) (s : State) : State :=
  {| tasks := tasks s; loading := v; searchTerm := searchTerm s |}.

Definition setSearchTerm (v : string) (s : State) : State :=
  {| tasks := tasks s; loading := loading s; searchTerm := v |}.

Definition initialState : State :=
  {| tasks := []; loading := false; searchTerm := EmptyString |}.

(** The condition of the ternary in the screen's body. *)
Definition shows_spinner (s : State) : bool :=
  loading s && (List.length (tasks s) =? 0)%nat.

Section Render.

Context `{JS.Date}.

(** The current time, [new Date()]. *)
Variable now : Z.

(** [new Date(item.dueDate)]; a missing property gives an invalid date. *)
Definition new_Date (d : option string) : JS.time :=
  match d with
  | Some s => JS.Date_parse s
  | None => None
  end.

Definition isOverdue (item : Task) : JS.value :=
  JS.and
    (JS.and (JS.prop (dueDate item)) (JS.not (JS.boolean (completed item))))
    (JS.lt (new_Date (dueDate item)) (Some now)).

Definition formattedDate (item : Task) : string :=
  if JS.ToBoolean (JS.prop (dueDate item))
  then JS.toLocaleDateString (new_Date (dueDate item))
  else "Tarih Yok".

Definition TaskCard (item : Task) (onTap : Action) : TaskCardView :=
  {| card_onPress := onTap;
     icon_name := if completed item then "check-circle" else "circle";
     icon_color := if completed item then Theme.success else Theme.primary;
     title_text := title item;
     title_style :=
       [Some styles.cardTitle;
        style_when (JS.boolean (completed item)) styles.cardTitleCompleted];
     date_text := formattedDate item;
     date_style :=
       [Some styles.cardDate;
        style_when (isOverdue item) [("color", Theme.danger)]] |}.

Definition renderItem (item : Task) : TaskCardView :=
  TaskCard item (navigateToDetail (id item)).

Definition HomeScreen (s : State) : HomeScreenView :=
  {| header_title := "Yapılacaklar";
     search_placeholder := "Görev ara...";
     content :=
       if shows_spinner s
       then ActivityIndicator Theme.primary
       else FlatListOf
              (FlatList (tasks s) renderItem
                 "Henüz görev yok. Yeni bir görev ekleyin."
                 (loading s) (DoFetch (searchTerm s)));
     fab_icon := "plus";
     fab_action :=
       DoNavigate (AppNavigator.navigate AppNavigator.add None) |}.

(** The cells of the list, one per task: none while the spinner replaces
    the list. *)
Definition list_cells (s : State) : list TaskCardView :=
  match content (HomeScreen s) with
  | ActivityIndicator _ => []
  | FlatListOf l => cells l
  end.

(** The rows on screen when the list's window covers [window]. *)
Definition mounted_rows (window : list nat) (s : State)
  : list TaskCardView :=
  match content (HomeScreen s) with
  | ActivityIndicator _ => []
  | FlatListOf l => mounted window l
  end.

Definition spinner_shown (s : State) : bool :=
  match content (HomeScreen s) with
  | ActivityIndicator _ => true
  | FlatListOf _ => false
  end.

Definition empty_message_shown (s : State) : option string :=
  match content (HomeScreen s) with
  | ActivityIndicator _ => None
  | FlatListOf l => empty_component l
  end.

(** The colour the date line of a card is drawn in. *)
Definition date_color (c : TaskCardView) : option string :=
  style_resolve "color" (date_style c).

End Render.

(** ** The screen and its effects *)

(** [requests] is every GET issued so far, oldest first; a request is named
    by its position in that log.  [pending] holds the requests whose promise
    has not settled yet. *)
Record World : Type := {
  screen : State;
  requests : list string;
  pending : list nat;
  alerts : list (string * string);
  navigations : list AppNavigator.NavCall
}.

Definition with_screen (f : State -> State) (w : World) : World :=
  {| screen := f (screen w);
     requests := requests w;
     pending := pending w;
     alerts := alerts w;
     navigations := navigations w |}.

Definition request_url (searchQuery : string) : string :=
  Theme.API_URL ++ "?search=" ++ searchQuery.

(** [axios.get(url)]: the request is logged and its promise is pending. *)
Definition axios_get (url : string) (w : World) : World :=
  {| screen := screen w;
     requests := requests w ++ [url];
     pending := pending w ++ [List.length (requests w)];
     alerts := alerts w;
     navigations := navigations w |}.

Definition Alert_alert (title message : string) (w : World) : World :=
  {| screen := screen w;
     requests := requests w;
     pending := pending w;
     alerts := alerts w ++ [(title, message)];
     navigations := navigations w |}.

Definition navigation_navigate (c : AppNavigator.NavCall) (w : World)
  : World :=
  {| screen := screen w;
     requests := requests w;
     pending := pending w;
     alerts := alerts w;
     navigations := navigations w ++ [c] |}.

(** How the awaited promise settles, as far as the typed state can follow:
    fulfilled with an array of tasks as [response.data], or rejected.  What
    axios makes of an arbitrary reply, including a body that is not JSON,
    is [axios_settles] below. *)
Inductive Outcome : Type :=
| Fulfilled (data : list Task)
| Rejected.

(** [fetchTasks] up to its [await]. *)
Definition fetchTasks (searchQuery : string) (w : World) : World :=
  axios_get (request_url searchQuery) (with_screen (setLoading true) w).

(** [fetchTasks] from its [await] on: the [try] body or the [catch] clause,
    then the [finally] clause. *)
Definition fetchTasks_resume (o : Outcome) (w : World) : World :=
  let w1 :=
    match o with
    | Fulfilled data => with_screen (setTasks data) w
    | Rejected =>
        Alert_alert "Hata" "Görevler yüklenirken bir sorun oluştu." w
    end in
  with_screen (setLoading false) w1.

Definition is_pending (r : nat) (w : World) : bool :=
  existsb (Nat.eqb r) (pending w).

Definition settle (r : nat) (o : Outcome) (w : World) : World :=
  if is_pending r w
  then
    let w1 := fetchTasks_resume o w in
    {| screen := screen w1;
       requests := requests w1;
       pending := filter (fun j => negb (j =? r)%nat) (pending w1);
       alerts := alerts w1;
       navigations := navigations w1 |}
  else w.

(** [handleSearch] followed by the effect on [[searchTerm, fetchTasks]]:
    the effect runs again only when the term differs from the one of the
    previous render. *)
Definition handleSearch (term : string) (w : World) : World :=
  let w1 := with_screen (setSearchTerm term) w in
  if searchTerm (screen w) =? term
  then w1
  else fetchTasks (searchTerm (screen w1)) w1.

(** The listener registered for ['focus']. *)
Definition on_focus (w : World) : World :=
  fetchTasks (searchTerm (screen w)) w.

Definition perform (a : Action) (w : World) : World :=
  match a with
  | DoNavigate c => navigation_navigate c w
  | DoFetch q => fetchTasks q w
  end.

Inductive Event : Type :=
| ChangeText (term : string)
| Focus
| PullToRefresh
| Settle (r : nat) (o : Outcome)
| PressRow (i : nat)
| PressFAB.

Definition step (e : Event) (w : World) : World :=
  match e with
  | ChangeText term => handleSearch term w
  | Focus => on_focus w
  | PullToRefresh =>
      if shows_spinner (screen w) then w
      else perform (DoFetch (searchTerm (screen w))) w
  | Settle r o => settle r o w
  | PressRow i =>
      if shows_spinner (screen w) then w
      else
        match nth_error (tasks (screen w)) i with
        | Some item => perform (navigateToDetail (id item)) w
        | None => w
        end
  | PressFAB =>
      perform (DoNavigate (AppNavigator.navigate AppNavigator.add None)) w
  end.

Definition run (evs : list Event) (w : World) : World :=
  fold_left (fun acc e => step e acc) evs w.

(** Before the first render's effects. *)
Definition unmounted : World :=
  {| screen := initialState;
     requests := [];
     pending := [];
     alerts := [];
     navigations := [] |}.

(** The first render: the search effect runs with the initial term. *)
Definition mount : World :=
  fetchTasks (searchTerm (screen unmounted)) unmounted.

(** Whether handling [e] in [w] starts a fetch. *)
Definition issues (e : Event) (w : World) : bool :=
  match e with
  | ChangeText term => negb (searchTerm (screen w) =? term)
  | Focus => true
  | PullToRefresh => negb (shows_spinner (screen w))
  | _ => false
  end.

Definition is_settle (e : Event) : bool :=
  match e with
  | Settle _ _ => true
  | _ => false
  end.

(** Whether [e] is the settlement of request [r]. *)
Definition settles (r : nat) (e : Event) : bool :=
  match e with
  | Settle r' _ => (r' =? r)%nat
  | _ => false
  end.

(** ** Reading a request URL back

    The backend is not part of this repository.  To say what an unencoded
    term means for whoever receives the request, this module reads a URL
    the way the URL standard does: leading and trailing control characters
    and spaces are stripped, tabs and newlines are removed, the fragment
    starts at the first [#] and is not sent, the query starts at the first
    [?], and the query is a form-urlencoded list of [name=value] pairs
    separated by [&], each pair cut at its first [=], with [+] read as a
    space and [%XY] as one byte.  [search_param] is the value of the first
    pair named [search]. *)

Module URL.

(** The part of [s] before the first [c]. *)
Fixpoint before (c : ascii) (s : string) : string :=
  match s with
  | EmptyString => EmptyString
  | String a s' => if Ascii.eqb a c then EmptyString else String a (before c s')
  end.

(** The part of [s] after the first [c], if [c] occurs. *)
Fixpoint after (c : ascii) (s : string) : option string :=
  match s with
  | EmptyString => None
  | String a s' => if Ascii.eqb a c then Some s' else after c s'
  end.

Fixpoint occurs (c : ascii) (s : string) : bool :=
  match s with
  | EmptyString => false
  | String a s' => Ascii.eqb a c || occurs c s'
  end.

Fixpoint split (c : ascii) (s : string) : list string :=
  match s with
  | EmptyString => [EmptyString]
  | String a s' =>
      if Ascii.eqb a c then EmptyString :: split c s'
      else
        match split c s' with
        | h :: tl => String a h :: tl
        | [] => [String a EmptyString]
        end
  end.

Definition hex_value (a : ascii) : option nat :=
  let n := nat_of_ascii a in
  if (48 <=? n)%nat && (n <=? 57)%nat then Some (n - 48)
  else if (65 <=? n)%nat && (n <=? 70)%nat then Some (n - 55)
  else if (97 <=? n)%nat && (n <=? 102)%nat then Some (n - 87)
  else None.

(** Form-urlencoded decoding of one name or value. *)
Fixpoint decode (s : string) : string :=
  match s with
  | EmptyString => EmptyString
  | String a s' =>
      if Ascii.eqb a "+" then String " " (decode s')
      else if Ascii.eqb a "%" then
        match s' with
        | String h (String l s'') =>
            match hex_value h, hex_value l with
            | Some x, Some y => String (ascii_of_nat (16 * x + y)) (decode s'')
            | _, _ => String a (decode s')
            end
        | _ => String a (decode s')
        end
      else String a (decode s')
  end.

(** A C0 control character or a space. *)
Definition is_c0_or_space (a : ascii) : bool :=
  (nat_of_ascii a <=? 32)%nat.

Definition is_tab_or_newline (a : ascii) : bool :=
  let n := nat_of_ascii a in
  (n =? 9)%nat || (n =? 10)%nat || (n =? 13)%nat.

Fixpoint strip_leading (s : string) : string :=
  match s with
  | EmptyString => EmptyString
  | String a s' => if is_c0_or_space a then strip_leading s' else s
  end.

Fixpoint strip_trailing (s : string) : string :=
  match s with
  | EmptyString => EmptyString
  | String a s' =>
      match strip_trailing s' with
      | EmptyString =>
          if is_c0_or_space a then EmptyString else String a EmptyString
      | String b r => String a (String b r)
      end
  end.

Fixpoint remove_tab_newline (s : string) : string :=
  match s with
  | EmptyString => EmptyString
  | String a s' =>
      if is_tab_or_newline a then remove_tab_newline s'
      else String a (remove_tab_newline s')
  end.

(** The input as the URL parser sees it. *)
Definition clean (url : string) : string :=
  remove_tab_newline (strip_trailing (strip_leading url)).

Definition query (url : string) : option string :=
  after "?" (before "#" (clean url)).

Definition parse_pair (p : string) : string * string :=
  (decode (before "=" p),
   decode (match after "=" p with
           | Some v => v
           | None => EmptyString
           end)).

Definition parse_query (q : string) : list (string * string) :=
  map parse_pair (filter (fun p => negb (p =? EmptyString)) (split "&" q)).

Fixpoint get (name : string) (ps : list (string * string)) : option string :=
  match ps with
  | [] => None
  | (k, v) :: rest => if k =? name then Some v else get name rest
  end.

Definition search_param (url : string) : option string :=
  match query url with
  | Some q => get "search" (parse_query q)
  | None => None
  end.

End URL.

(** ** A host to run examples on

    Dates are read as a decimal count of milliseconds; anything else is an
    invalid date. *)

Definition digit_value (a : ascii) : option Z :=
  let n := nat_of_ascii a in
  if (48 <=? n)%nat && (n <=? 57)%nat then Some (Z.of_nat (n - 48)) else None.

Fixpoint read_decimal (acc : Z) (s : string) : option Z :=
  match s with
  | EmptyString => Some acc
  | String a s' =>
      match digit_value a with
      | Some d => read_decimal (10 * acc + d) s'
      | None => None
      end
  end.

Definition sample_parse (s : string) : JS.time :=
  match s with
  | EmptyString => None
  | String _ _ => read_decimal 0 s
  end.

Definition sample_format (t : JS.time) : string :=
  match t with
  | Some _ => "01 Oca 1970"
  | None => "Invalid Date"
  end.

#[local] Instance sample_date : JS.Date :=
  {| JS.Date_parse := sample_parse;
     JS.toLocaleDateString := sample_format;
     JS.Date_parse_empty := eq_refl |}.

Definition milk : Task :=
  {| id := "t1"; title := "Buy milk"; dueDate := Some "1000";
     completed := false |}.

Definition bread : Task :=
  {| id := "t2"; title := "Buy bread"; dueDate := None;
     completed := false |}.

Definition taxes : Task :=
  {| id := "t3"; title := "File taxes"; dueDate := Some "1000";
     completed := true |}.

(** Twelve tasks with the distinct ids [a] to [l]. *)
Definition numbered (n : nat) : Task :=
  {| id := String (ascii_of_nat (97 + n)) EmptyString;
     title := "Task"; dueDate := None; completed := false |}.

Definition twelve_tasks : list Task := map numbered (seq 0 12).

(** ** Replies and what axios makes of them

    [axios.get(url)] is called without a configuration, so the defaults of
    axios apply: the promise rejects on a network error and on a status
    outside 200..299, and a body that does not parse as JSON is not an
    error: it is handed over unparsed, as a string, in [response.data]. *)

Inductive Body : Type :=
| TasksJson (data : list Task)
| Malformed (raw : string).

Inductive Reply : Type :=
| NetworkError
| Response (status : nat) (body : Body).

(** The value of [response.data]. *)
Inductive Data : Type :=
| TaskArray (data : list Task)
| RawString (raw : string).

Definition validateStatus (status : nat) : bool :=
  (200 <=? status)%nat && (status <? 300)%nat.

Definition transformResponse (b : Body) : Data :=
  match b with
  | TasksJson data => TaskArray data
  | Malformed raw => RawString raw
  end.

(** [None] when the promise rejects. *)
Definition axios_settles (r : Reply) : option Data :=
  match r with
  | NetworkError => None
  | Response status body =>
      if validateStatus status then Some (transformResponse body) else None
  end.

(** The failures the specification lists: network error, non-2xx status,
    parse error. *)
Definition is_failure (r : Reply) : bool :=
  match r with
  | NetworkError => true
  | Response status (TasksJson _) => negb (validateStatus status)
  | Response _ (Malformed _) => true
  end.

(** The calls [fetchTasks] makes from its [await] on. *)
Inductive Call : Type :=
| SetTasks (d : Data)
| SetLoading (b : bool)
| AlertAlert (title message : string).

Definition fetchTasks_calls (result : option Data) : list Call :=
  (match result with
   | Some d => [SetTasks d]
   | None => [AlertAlert "Hata" "Görevler yüklenirken bir sorun oluştu."]
   end ++ [SetLoading false])%list.

Definition is_SetTasks (c : Call) : bool :=
  match c with
  | SetTasks _ => true
  | _ => false
  end.

Definition is_AlertAlert (c : Call) : bool :=
  match c with
  | AlertAlert _ _ => true
  | _ => false
  end.

(** One call applied to the typed state; [None] when [setTasks] is given a
    string, which the state declared as [Task[]] cannot hold. *)
Definition do_call (c : Call) (w : World) : option World :=
  match c with
  | SetTasks (TaskArray data) => Some (with_screen (setTasks data) w)
  | SetTasks (RawString _) => None
  | SetLoading b => Some (with_screen (setLoading b) w)
  | AlertAlert title message => Some (Alert_alert title message w)
  end.

Fixpoint do_calls (cs : list Call) (w : World) : option World :=
  match cs with
  | [] => Some w
  | c :: rest =>
      match do_call c w with
      | Some w1 => do_calls rest w1
      | None => None
      end
  end.

(** The outcome a settled promise is for the typed state. *)
Definition outcome_of (result : option Data) : option Outcome :=
  match result with
  | None => Some Rejected
  | Some (TaskArray data) => Some (Fulfilled data)
  | Some (RawString _) => None
  end.

(** ** Classes of events and the invariant of the screen *)

(** The only alert [fetchTasks] can raise. *)
Definition generic_alert : string * string :=
  ("Hata", "Görevler yüklenirken bir sorun oluştu.").

Definition is_fulfilled (e : Event) : bool :=
  match e with
  | Settle _ (Fulfilled _) => true
  | _ => false
  end.

Definition is_press (e : Event) : bool :=
  match e with
  | PressRow _ => true
  | PressFAB => true
  | _ => false
  end.

Definition is_change (e : Event) : bool :=
  match e with
  | ChangeText _ => true
  | _ => false
  end.

(** Each typed term differs from the one held just before it. *)
Fixpoint each_differs (current : string) (terms : list string) : bool :=
  match terms with
  | [] => true
  | t :: rest => negb (current =? t) && each_differs t rest
  end.

(** What holds of the request bookkeeping in every world the screen can
    reach: pending requests are distinct entries of the log, what has been
    alerted is the generic alert, at most once per request that is no
    longer pending, and the loading flag is only set while something is
    pending. *)
Record consistent (w : World) : Prop := {
  pending_distinct : NoDup (pending w);
  pending_logged :
    Forall (fun r => r < List.length (requests w)) (pending w);
  alerts_generic : Forall (fun a => a = generic_alert) (alerts w);
  alerts_bounded :
    List.length (alerts w) + List.length (pending w)
    <= List.length (requests w);
  loading_pending : loading (screen w) = true -> pending w <> []
}.

(** * Properties *)

(** ** Traces *)

Lemma run_nil (w : World) : run [] w = w.
Proof. reflexivity. Qed.

Lemma run_cons (e : Event) (evs : list Event) (w : World) :
  run (e :: evs) w = run evs (step e w).
Proof. reflexivity. Qed.

Lemma run_app (evs1 evs2 : list Event) (w : World) :
  run (evs1 ++ evs2) w = run evs2 (run evs1 w).
Proof. unfold run. apply fold_left_app. Qed.

(** ** What one call of [fetchTasks] does *)

Lemma fetchTasks_requests (q : string) (w : World) :
  requests (fetchTasks q w) = (requests w ++ [request_url q])%list.
Proof. reflexivity. Qed.

Lemma fetchTasks_pending (q : string) (w : World) :
  pending (fetchTasks q w) = (pending w ++ [List.length (requests w)])%list.
Proof. reflexivity. Qed.

Lemma fetchTasks_loading (q : string) (w : World) :
  loading (screen (fetchTasks q w)) = true.
Proof. reflexivity. Qed.

Lemma fetchTasks_keeps (q : string) (w : World) :
  tasks (screen (fetchTasks q w)) = tasks (screen w) /\
  searchTerm (screen (fetchTasks q w)) = searchTerm (screen w) /\
  alerts (fetchTasks q w) = alerts w /\
  navigations (fetchTasks q w) = navigations w.
Proof. repeat split. Qed.

(** Every way the screen has of starting a fetch is a call of [fetchTasks]. *)
Lemma issues_fetchTasks (e : Event) (w : World) :
  issues e w = true -> exists q w0, step e w = fetchTasks q w0.
Proof.
  destruct e as [term | | | r o | i |]; simpl; try discriminate.
  - intros Hne. unfold handleSearch.
    destruct (searchTerm (screen w) =? term); [discriminate |].
    eauto.
  - intros _. unfold on_focus. eauto.
  - intros Hs. destruct (shows_spinner (screen w)); [discriminate |].
    simpl. eauto.
Qed.

(** ** Pending requests along a trace *)

Lemma is_pending_In (r : nat) (w : World) :
  is_pending r w = true <-> In r (pending w).
Proof.
  unfold is_pending. rewrite existsb_exists. split.
  - intros [j [Hin Heq]]. apply Nat.eqb_eq in Heq. now subst.
  - intros Hin. exists r. split; [assumption | apply Nat.eqb_refl].
Qed.

Lemma settle_pending (r : nat) (o : Outcome) (w : World) :
  is_pending r w = true ->
  pending (settle r o w) = filter (fun j => negb (j =? r)%nat) (pending w).
Proof.
  intros Hp. unfold settle. rewrite Hp. destruct o; reflexivity.
Qed.

Lemma settle_consumes (r : nat) (o : Outcome) (w : World) :
  is_pending r (settle r o w) = false.
Proof.
  destruct (is_pending r w) eqn:Hp.
  - apply not_true_is_false. intros Hin.
    apply is_pending_In in Hin. rewrite (settle_pending r o w Hp) in Hin.
    apply filter_In in Hin. destruct Hin as [_ Hneq].
    rewrite Nat.eqb_refl in Hneq. discriminate.
  - unfold settle. rewrite Hp. exact Hp.
Qed.

Lemma step_keeps_pending (r : nat) (e : Event) (w : World) :
  settles r e = false ->
  is_pending r w = true ->
  is_pending r (step e w) = true.
Proof.
  intros Hns Hp. apply is_pending_In. apply is_pending_In in Hp.
  destruct e as [term | | | r' o | i |]; simpl.
  - unfold handleSearch.
    destruct (searchTerm (screen w) =? term); simpl; [assumption |].
    apply in_or_app. now left.
  - apply in_or_app. now left.
  - destruct (shows_spinner (screen w)); simpl; [assumption |].
    apply in_or_app. now left.
  - simpl in Hns. unfold settle.
    destruct (is_pending r' w); [| assumption].
    destruct o; simpl; apply filter_In; (split; [assumption |]);
      rewrite Nat.eqb_sym, Hns; reflexivity.
  - destruct (shows_spinner (screen w)); [assumption |].
    destruct (nth_error (tasks (screen w)) i); assumption.
  - assumption.
Qed.

Lemma run_keeps_pending (r : nat) (evs : list Event) :
  forall w,
    forallb (fun e => negb (settles r e)) evs = true ->
    is_pending r w = true ->
    is_pending r (run evs w) = true.
Proof.
  induction evs as [| e evs IH]; intros w Hq Hp.
  - exact Hp.
  - simpl in Hq. apply andb_true_iff in Hq. destruct Hq as [He Hq].
    rewrite run_cons. apply IH; [assumption |].
    apply step_keeps_pending; [| assumption].
    now apply negb_true_iff.
Qed.

(** ** The loading flag between settlements *)

Lemma step_keeps_loading (e : Event) (w : World) :
  is_settle e = false ->
  loading (screen w) = true ->
  loading (screen (step e w)) = true.
Proof.
  intros Hns Hl.
  destruct e as [term | | | r' o | i |]; simpl; try discriminate.
  - unfold handleSearch.
    destruct (searchTerm (screen w) =? term); simpl; [assumption | reflexivity].
  - reflexivity.
  - destruct (shows_spinner (screen w)); [assumption | reflexivity].
  - destruct (shows_spinner (screen w)); [assumption |].
    destruct (nth_error (tasks (screen w)) i); assumption.
  - assumption.
Qed.

Lemma step_keeps_some_pending (e : Event) (w : World) :
  is_settle e = false ->
  pending w <> [] ->
  pending (step e w) <> [].
Proof.
  intros Hns Hp.
  destruct (pending w) as [| r rest] eqn:Hpw; [contradiction |].
  assert (Hr : is_pending r w = true).
  { apply is_pending_In. rewrite Hpw. now left. }
  assert (Hr' : is_pending r (step e w) = true).
  { apply step_keeps_pending; [| assumption].
    destruct e; simpl in *; try reflexivity. discriminate. }
  apply is_pending_In in Hr'. intros Hnil. rewrite Hnil in Hr'. exact Hr'.
Qed.

Lemma run_quiet (evs : list Event) :
  forall w,
    forallb (fun e => negb (is_settle e)) evs = true ->
    loading (screen w) = true ->
    pending w <> [] ->
    loading (screen (run evs w)) = true /\ pending (run evs w) <> [].
Proof.
  induction evs as [| e evs IH]; intros w Hq Hl Hp.
  - split; assumption.
  - simpl in Hq. apply andb_true_iff in Hq. destruct Hq as [He Hq].
    apply negb_true_iff in He.
    rewrite run_cons. apply IH; [assumption | |].
    + now apply step_keeps_loading.
    + now apply step_keeps_some_pending.
Qed.

(** ** Settling a fetch *)

Lemma settle_fulfilled_screen (r : nat) (data : list Task) (w : World) :
  is_pending r w = true ->
  screen (settle r (Fulfilled data) w) =
  {| tasks := data; loading := false; searchTerm := searchTerm (screen w) |}.
Proof.
  intros Hp. unfold settle. rewrite Hp. reflexivity.
Qed.

Lemma fulfilled_after_trace (r : nat) (data : list Task)
    (evs : list Event) (w : World) :
  is_pending r w = true ->
  forallb (fun e => negb (settles r e)) evs = true ->
  tasks (screen (step (Settle r (Fulfilled data)) (run evs w))) = data.
Proof.
  intros Hp Hq. simpl.
  rewrite settle_fulfilled_screen; [reflexivity |].
  now apply run_keeps_pending.
Qed.

Lemma fetchTasks_is_pending (q : string) (w : World) :
  is_pending (List.length (requests w)) (fetchTasks q w) = true.
Proof.
  apply is_pending_In. rewrite fetchTasks_pending.
  apply in_or_app. right. now left.
Qed.

(** What the rejection of a pending request does: the list keeps its
    value, one alert is added, no request is issued, the request is no
    longer pending, and a second rejection of it does nothing. *)
Lemma rejection_keeps_list_and_alerts_once (w : World) (r : nat) :
  is_pending r w = true ->
  let w' := step (Settle r Rejected) w in
  tasks (screen w') = tasks (screen w) /\
  alerts w' =
    (alerts w ++ [("Hata", "Görevler yüklenirken bir sorun oluştu.")])%list /\
  requests w' = requests w /\
  pending w' = filter (fun j => negb (j =? r)%nat) (pending w) /\
  is_pending r w' = false /\
  step (Settle r Rejected) w' = w'.
Proof.
  intros Hp w'.
  assert (Hc : is_pending r w' = false) by apply settle_consumes.
  subst w'. simpl in *. unfold settle in *. rewrite Hp in *. simpl in *.
  repeat split; try assumption.
  unfold is_pending in Hc at 1. simpl in Hc.
  unfold is_pending at 1. simpl. rewrite Hc. reflexivity.
Qed.

(** Under the defaults of axios the promise rejects exactly on a network
    error and on a status outside 200..299. *)
Lemma axios_rejects_iff (reply : Reply) :
  axios_settles reply = None <->
  reply = NetworkError \/
  exists status body,
    reply = Response status body /\ validateStatus status = false.
Proof.
  split.
  - destruct reply as [| status body]; simpl; [now left |].
    destruct (validateStatus status) eqn:Hv; [discriminate |].
    intros _. right. now exists status, body.
  - intros [Hn | (status & body & Hr & Hv)]; subst reply; simpl.
    + reflexivity.
    + now rewrite Hv.
Qed.

(** On the outcomes the typed state can follow, the calls of [fetchTasks]
    after its [await] are what [fetchTasks_resume] does. *)
Lemma do_calls_typed (result : option Data) (o : Outcome) (w : World) :
  outcome_of result = Some o ->
  do_calls (fetchTasks_calls result) w = Some (fetchTasks_resume o w).
Proof.
  destruct result as [[data | raw] |]; simpl; intros Ho;
    try discriminate; injection Ho as Ho; subst o; reflexivity.
Qed.

(** C1, as stated, fails for a parse error: a 2xx reply whose body is not
    JSON does not reject, so [fetchTasks] calls [setTasks] with the raw
    body and shows no alert. *)
Lemma malformed_body_is_not_caught :
  ~ (forall reply : Reply,
       is_failure reply = true ->
       let calls := fetchTasks_calls (axios_settles reply) in
       existsb is_SetTasks calls = false /\
       List.length (filter is_AlertAlert calls) = 1).
Proof.
  intros Hclaim.
  destruct (Hclaim (Response 200 (Malformed "<html>")) eq_refl)
    as [Hset _].
  discriminate Hset.
Qed.

(** C1, amended.  For a fetch whose promise rejects, which under the
    defaults of axios means a network error or a status outside 200..299,
    [fetchTasks] makes exactly the calls [Alert.alert] and
    [setLoading(false)]: the task list keeps its value, exactly one alert
    is shown, and no request is issued in response. *)
Theorem rejected_fetch_keeps_list_and_alerts_once
    (w : World) (r : nat) (reply : Reply) :
  is_pending r w = true ->
  axios_settles reply = None ->
  let calls := fetchTasks_calls (axios_settles reply) in
  let w' := step (Settle r Rejected) w in
  (reply = NetworkError \/
   exists status body,
     reply = Response status body /\ validateStatus status = false) /\
  calls =
    [AlertAlert "Hata" "Görevler yüklenirken bir sorun oluştu.";
     SetLoading false] /\
  do_calls calls w = Some (fetchTasks_resume Rejected w) /\
  tasks (screen w') = tasks (screen w) /\
  alerts w' =
    (alerts w ++ [("Hata", "Görevler yüklenirken bir sorun oluştu.")])%list /\
  requests w' = requests w /\
  pending w' = filter (fun j => negb (j =? r)%nat) (pending w) /\
  is_pending r w' = false /\
  step (Settle r Rejected) w' = w'.
Proof.
  intros Hp Hrej calls w'. subst calls. rewrite Hrej.
  split; [now apply axios_rejects_iff |].
  split; [reflexivity |]. split; [reflexivity |].
  now apply rejection_keeps_list_and_alerts_once.
Qed.

Lemma rejected_fetch_keeps_list_and_alerts_once_witness :
  is_pending 1
    (run [Settle 0 (Fulfilled [milk; bread]); Focus] mount) = true /\
  axios_settles (Response 500 (TasksJson [])) = None /\
  tasks (screen (step (Settle 1 Rejected)
    (run [Settle 0 (Fulfilled [milk; bread]); Focus] mount)))
  = [milk; bread] /\
  alerts (step (Settle 1 Rejected)
    (run [Settle 0 (Fulfilled [milk; bread]); Focus] mount))
  = [("Hata", "Görevler yüklenirken bir sorun oluştu.")].
Proof.
  split; [reflexivity |]. split; [reflexivity |].
  destruct (rejected_fetch_keeps_list_and_alerts_once
              (run [Settle 0 (Fulfilled [milk; bread]); Focus] mount) 1
              (Response 500 (TasksJson [])) eq_refl eq_refl)
    as (_ & _ & _ & Ht & Ha & _).
  split; [exact Ht | exact Ha].
Defined.

(** C2. On mount the screen issues exactly one GET, for the empty term; every
    change of the search term to [t] issues exactly one GET, for
    [search=t]; and when the response of that request arrives, whatever
    happened in between, the task list becomes the response body. *)
Theorem search_change_issues_one_get_and_replaces
    (w : World) (t : string) (data : list Task) (evs : list Event) :
  (requests mount = [request_url EmptyString] /\
   pending mount = [0] /\
   (forallb (fun e => negb (settles 0 e)) evs = true ->
    tasks (screen (step (Settle 0 (Fulfilled data)) (run evs mount))) = data))
  /\
  (searchTerm (screen w) <> t ->
   let r := List.length (requests w) in
   let w1 := step (ChangeText t) w in
   searchTerm (screen w1) = t /\
   requests w1 =
     (requests w ++ [(Theme.API_URL ++ "?search=" ++ t)%string])%list /\
   pending w1 = (pending w ++ [r])%list /\
   (forallb (fun e => negb (settles r e)) evs = true ->
    tasks (screen (step (Settle r (Fulfilled data)) (run evs w1))) = data)).
Proof.
  split.
  - repeat split. intros Hq.
    apply fulfilled_after_trace; [reflexivity | assumption].
  - intros Hne r w1.
    assert (Hstep : w1 = fetchTasks t (with_screen (setSearchTerm t) w)).
    { subst w1. simpl. unfold handleSearch.
      destruct (searchTerm (screen w) =? t) eqn:He; [| reflexivity].
      apply String.eqb_eq in He. contradiction. }
    rewrite Hstep. repeat split. intros Hq.
    apply fulfilled_after_trace; [| assumption].
    apply (fetchTasks_is_pending t (with_screen (setSearchTerm t) w)).
Qed.

Lemma search_change_issues_one_get_and_replaces_witness :
  searchTerm (screen mount) <> "milk" /\
  forallb (fun e => negb (settles 1 e))
    [Settle 0 (Fulfilled [bread; taxes]); PressFAB] = true /\
  requests (step (ChangeText "milk") mount) =
    ["http://10.0.2.2:3000/api/tasks?search=";
     "http://10.0.2.2:3000/api/tasks?search=milk"] /\
  tasks (screen (step (Settle 1 (Fulfilled [milk]))
    (run [Settle 0 (Fulfilled [bread; taxes]); PressFAB]
       (step (ChangeText "milk") mount)))) = [milk].
Proof.
  split; [discriminate |]. split; [reflexivity |].
  destruct (search_change_issues_one_get_and_replaces mount "milk" [milk]
              [Settle 0 (Fulfilled [bread; taxes]); PressFAB])
    as [_ Hchange].
  destruct Hchange as (_ & Hreq & _ & Hdata); [discriminate |].
  split; [exact Hreq | apply Hdata; reflexivity].
Defined.


(** C4, as stated, fails: with two fetches overlapping, the [finally] clause
    of the first one to settle clears the flag while the other is still
    pending. *)
Lemma loading_false_with_fetch_in_flight :
  ~ (forall evs : list Event,
       pending (run evs mount) <> [] ->
       loading (screen (run evs mount)) = true).
Proof.
  intros Hclaim.
  specialize (Hclaim [ChangeText "a"; Settle 0 (Fulfilled [])]).
  simpl in Hclaim.
  assert (Hl : false = true) by (apply Hclaim; discriminate).
  discriminate Hl.
Qed.

(** The [finally] clause: settling a pending request clears the loading
    flag, whatever the outcome and whatever else is pending. *)
Lemma settle_clears_loading (r : nat) (o : Outcome) (w : World) :
  is_pending r w = true ->
  loading (screen (step (Settle r o) w)) = false.
Proof.
  intros Hp. simpl. unfold settle. rewrite Hp. destruct o; reflexivity.
Qed.

(** C4, amended.  From the moment a fetch is started, on mount or by an
    event, until the next settlement of any fetch, a fetch is in flight and
    the loading flag is true; and once any pending fetch settles, fulfilled
    or rejected, the flag is false, even if other fetches are still in
    flight. *)
Theorem loading_until_next_settlement
    (w : World) (e : Event) (evs : list Event) (r : nat) (o : Outcome) :
  (forallb (fun e' => negb (is_settle e')) evs = true ->
   loading (screen (run evs mount)) = true /\ pending (run evs mount) <> [])
  /\
  (forallb (fun e' => negb (is_settle e')) evs = true ->
   issues e w = true ->
   loading (screen (run (e :: evs) w)) = true /\
   pending (run (e :: evs) w) <> [])
  /\
  (is_pending r w = true ->
   loading (screen (step (Settle r o) w)) = false /\
   pending (step (Settle r o) w) =
     filter (fun j => negb (j =? r)%nat) (pending w)).
Proof.
  split; [| split].
  - intros Hq. apply run_quiet; [assumption | reflexivity | discriminate].
  - intros Hq Hi. rewrite run_cons.
    destruct (issues_fetchTasks e w Hi) as (q & w0 & Hstep).
    rewrite Hstep. apply run_quiet; [assumption | reflexivity |].
    rewrite fetchTasks_pending. intros Hnil.
    apply app_eq_nil in Hnil. destruct Hnil as [_ Hnil]. discriminate Hnil.
  - intros Hp. split; [now apply settle_clears_loading |].
    now apply settle_pending.
Qed.

Lemma loading_until_next_settlement_witness :
  (forallb (fun e' => negb (is_settle e')) [ChangeText "b"; PressFAB]
     = true /\
   issues Focus (run [Settle 0 (Fulfilled [milk])] mount) = true /\
   loading (screen (run [Settle 0 (Fulfilled [milk]); Focus;
                         ChangeText "b"; PressFAB] mount)) = true)
  /\
  (is_pending 0 (step Focus mount) = true /\
   loading (screen (step (Settle 0 Rejected) (step Focus mount))) = false /\
   pending (step (Settle 0 Rejected) (step Focus mount)) = [1]).
Proof.
  split.
  - split; [reflexivity |]. split; [reflexivity |].
    destruct (loading_until_next_settlement
                (run [Settle 0 (Fulfilled [milk])] mount) Focus
                [ChangeText "b"; PressFAB] 0 Rejected) as (_ & Hev & _).
    destruct (Hev eq_refl eq_refl) as [Hl _].
    exact Hl.
  - split; [reflexivity |].
    destruct (loading_until_next_settlement
                (step Focus mount) Focus [] 0 Rejected) as (_ & _ & Hfin).
    destruct (Hfin eq_refl) as [Hl Hp].
    split; [exact Hl | exact Hp].
Defined.

(** ** Cards *)

Lemma date_color_flag (c : JS.value) :
  style_resolve "color"
    [Some styles.cardDate; style_when c [("color", Theme.danger)]] =
  Some (if JS.ToBoolean c then Theme.danger else Theme.text).
Proof.
  unfold style_when. destruct (JS.ToBoolean c); reflexivity.
Qed.

Lemma TaskCard_date_color `{JS.Date}
    (now : Z) (item : Task) (onTap : Action) :
  date_color (TaskCard now item onTap) =
  Some (if JS.ToBoolean (isOverdue now item)
        then Theme.danger else Theme.text).
Proof.
  unfold date_color, TaskCard. cbn [date_style]. apply date_color_flag.
Qed.

Lemma formattedDate_cases `{JS.Date} (item : Task) :
  formattedDate item =
  match dueDate item with
  | None => "Tarih Yok"
  | Some d =>
      if d =? EmptyString then "Tarih Yok"
      else JS.toLocaleDateString (JS.Date_parse d)
  end.
Proof.
  unfold formattedDate. destruct (dueDate item) as [d |]; simpl.
  - destruct (d =? EmptyString); reflexivity.
  - reflexivity.
Qed.

(** C3. A task whose due date lies before the current time and which is not
    completed is flagged overdue and its date is drawn in the danger colour;
    a completed task is not flagged, whatever its due date. *)
Theorem overdue_flag `{JS.Date} (now : Z) (item : Task) (onTap : Action) :
  (forall d t,
     dueDate item = Some d ->
     JS.Date_parse d = Some t ->
     (t < now)%Z ->
     completed item = false ->
     JS.ToBoolean (isOverdue now item) = true /\
     date_color (TaskCard now item onTap) = Some Theme.danger)
  /\
  (completed item = true ->
   JS.ToBoolean (isOverdue now item) = false /\
   date_color (TaskCard now item onTap) = Some Theme.text).
Proof.
  split.
  - intros d t Hd Hp Hlt Hc.
    assert (Hne : (d =? EmptyString) = false).
    { destruct (d =? EmptyString) eqn:He; [| reflexivity].
      apply String.eqb_eq in He. subst d.
      rewrite JS.Date_parse_empty in Hp. discriminate Hp. }
    assert (Hflag : JS.ToBoolean (isOverdue now item) = true).
    { unfold isOverdue, JS.and, JS.not, new_Date. rewrite Hd, Hc. simpl.
      rewrite Hne. simpl. rewrite Hp. simpl. now apply Z.ltb_lt. }
    split; [exact Hflag |].
    rewrite TaskCard_date_color, Hflag. reflexivity.
  - intros Hc.
    assert (Hflag : JS.ToBoolean (isOverdue now item) = false).
    { unfold isOverdue, JS.and, JS.not. rewrite Hc.
      destruct (dueDate item) as [d |]; simpl; [| reflexivity].
      destruct (d =? EmptyString) eqn:He;
        repeat (simpl; rewrite ?He); reflexivity. }
    split; [exact Hflag |].
    rewrite TaskCard_date_color, Hflag. reflexivity.
Qed.

Lemma overdue_flag_witness :
  (dueDate milk = Some "1000" /\
   JS.Date_parse "1000" = Some 1000%Z /\
   (1000 < 2000)%Z /\
   completed milk = false /\
   date_color (TaskCard 2000 milk (navigateToDetail "t1")) =
     Some Theme.danger)
  /\
  (completed taxes = true /\
   JS.ToBoolean (isOverdue 2000 taxes) = false).
Proof.
  split.
  - repeat (split; [reflexivity |]).
    destruct (overdue_flag 2000 milk (navigateToDetail "t1")) as [Hpast _].
    destruct (Hpast "1000" 1000%Z eq_refl eq_refl eq_refl eq_refl)
      as [_ Hcol].
    exact Hcol.
  - split; [reflexivity |].
    destruct (overdue_flag 2000 taxes (navigateToDetail "t3")) as [_ Hdone].
    destruct (Hdone eq_refl) as [Hflag _].
    exact Hflag.
Defined.

(** C9. A task without a due date, or with the empty string as due date, is
    never flagged overdue, whatever its completed flag and the current
    time. *)
Theorem no_due_date_never_overdue `{JS.Date}
    (now : Z) (item : Task) (onTap : Action) :
  dueDate item = None \/ dueDate item = Some EmptyString ->
  JS.ToBoolean (isOverdue now item) = false /\
  date_color (TaskCard now item onTap) = Some Theme.text.
Proof.
  intros Habsent.
  assert (Hflag : JS.ToBoolean (isOverdue now item) = false).
  { unfold isOverdue, JS.and.
    destruct Habsent as [Hd | Hd]; rewrite Hd; reflexivity. }
  split; [exact Hflag |].
  rewrite TaskCard_date_color, Hflag. reflexivity.
Qed.

Lemma no_due_date_never_overdue_witness :
  (dueDate bread = None \/ dueDate bread = Some EmptyString) /\
  JS.ToBoolean (isOverdue 2000 bread) = false /\
  date_color (TaskCard 2000 bread (navigateToDetail "t2")) = Some Theme.text.
Proof.
  split; [left; reflexivity |].
  apply (no_due_date_never_overdue 2000 bread (navigateToDetail "t2")).
  left; reflexivity.
Defined.

(** ** The list *)

Lemma shows_spinner_nonempty (s : State) (i : nat) (item : Task) :
  nth_error (tasks s) i = Some item -> shows_spinner s = false.
Proof.
  unfold shows_spinner. destruct (tasks s) as [| x rest].
  - destruct i; discriminate.
  - intros _. apply andb_false_r.
Qed.

Lemma list_cells_map `{JS.Date} (now : Z) (s : State) :
  list_cells now s = map (renderItem now) (tasks s).
Proof.
  unfold list_cells, HomeScreen. cbn [content].
  destruct (shows_spinner s) eqn:Hs; [| reflexivity].
  unfold shows_spinner in Hs. apply andb_true_iff in Hs.
  destruct Hs as [_ Hlen]. apply Nat.eqb_eq in Hlen.
  apply length_zero_iff_nil in Hlen. rewrite Hlen. reflexivity.
Qed.

(** The rows mounted for a window are the cards of the tasks at the
    window's indices. *)
Lemma mounted_rows_pick `{JS.Date} (now : Z) (window : list nat)
    (s : State) :
  mounted_rows now window s =
  flat_map (fun i =>
              match nth_error (tasks s) i with
              | Some item => [renderItem now item]
              | None => []
              end) window.
Proof.
  unfold mounted_rows, HomeScreen. cbn [content].
  destruct (shows_spinner s) eqn:Hs.
  - unfold shows_spinner in Hs. apply andb_true_iff in Hs.
    destruct Hs as [_ Hlen]. apply Nat.eqb_eq in Hlen.
    apply length_zero_iff_nil in Hlen. rewrite Hlen.
    induction window as [| i window IH]; [reflexivity |].
    simpl. rewrite <- IH. now destruct i.
  - unfold mounted, FlatList. cbn [cells].
    induction window as [| i window IH]; [reflexivity |].
    simpl. rewrite IH, nth_error_map.
    now destruct (nth_error (tasks s) i).
Qed.

Lemma mounted_rows_no_tasks `{JS.Date} (now : Z) (window : list nat)
    (s : State) :
  tasks s = [] -> mounted_rows now window s = [].
Proof.
  intros Ht. rewrite mounted_rows_pick, Ht.
  induction window as [| i window IH]; [reflexivity |].
  simpl. rewrite IH. now destruct i.
Qed.

Lemma mounted_rows_In `{JS.Date} (now : Z) (window : list nat)
    (s : State) (row : TaskCardView) :
  In row (mounted_rows now window s) ->
  exists i item,
    In i window /\ nth_error (tasks s) i = Some item /\
    row = renderItem now item.
Proof.
  rewrite mounted_rows_pick. intros Hin.
  apply in_flat_map in Hin. destruct Hin as (i & Hi & Hrow).
  destruct (nth_error (tasks s) i) as [item |] eqn:Hn; [| contradiction].
  destruct Hrow as [Hrow | []]. exists i, item. now repeat split.
Qed.

Lemma mounted_rows_length `{JS.Date} (now : Z) (window : list nat)
    (s : State) :
  List.length (mounted_rows now window s) <= List.length window.
Proof.
  rewrite mounted_rows_pick.
  induction window as [| i window IH]; simpl; [lia |].
  rewrite length_app.
  destruct (nth_error (tasks s) i); simpl; lia.
Qed.

Lemma mounted_seq_length `{JS.Date} (now : Z) (s : State) (n : nat) :
  forall a,
    List.length (mounted_rows now (seq a n) s) =
    Nat.min (List.length (tasks s) - a) n.
Proof.
  induction n as [| n IH]; intros a; rewrite mounted_rows_pick; simpl;
    [lia |].
  specialize (IH (S a)). rewrite mounted_rows_pick in IH.
  rewrite length_app, IH.
  destruct (nth_error (tasks s) a) as [item |] eqn:Hn; simpl.
  - assert (a < List.length (tasks s))
      by (apply nth_error_Some; congruence).
    lia.
  - apply nth_error_None in Hn. lia.
Qed.

(** C5, as stated, fails on the row count: after a response with twelve
    tasks the list's first render mounts ten rows. *)
Lemma twelve_tasks_mount_ten_rows :
  ~ (forall (host : JS.Date) (now : Z) (w : World) (r : nat)
            (data : list Task),
       is_pending r w = true ->
       let s' := screen (step (Settle r (Fulfilled data)) w) in
       List.length (mounted_rows now first_batch s') = List.length data /\
       forall i item,
         nth_error data i = Some item ->
         exists row,
           nth_error (list_cells now s') i = Some row /\
           title_text row = title item /\
           date_text row =
             match dueDate item with
             | None => "Tarih Yok"
             | Some d =>
                 if d =? EmptyString then "Tarih Yok"
                 else JS.toLocaleDateString (JS.Date_parse d)
             end).
Proof.
  intros Hclaim.
  destruct (Hclaim sample_date 2000%Z mount 0 twelve_tasks eq_refl)
    as [Hcount _].
  vm_compute in Hcount. discriminate Hcount.
Qed.

(** C5, amended.  After a successful response with N tasks the list is
    given exactly those N tasks, in order, as its data, and its cell for
    each of them shows the task's title and its formatted due date, or the
    placeholder when the task has no due date (or an empty one).  The rows
    mounted at a time are the cells under the list's window, each the cell
    of one task of the response: at most as many as the window is wide, and
    the first min(N, 10) of them on the list's first render. *)
Theorem response_rows `{JS.Date}
    (now : Z) (w : World) (r : nat) (data : list Task)
    (window : list nat) :
  is_pending r w = true ->
  let s' := screen (step (Settle r (Fulfilled data)) w) in
  List.length (list_cells now s') = List.length data /\
  (forall i item,
     nth_error data i = Some item ->
     exists row,
       nth_error (list_cells now s') i = Some row /\
       title_text row = title item /\
       date_text row =
         match dueDate item with
         | None => "Tarih Yok"
         | Some d =>
             if d =? EmptyString then "Tarih Yok"
             else JS.toLocaleDateString (JS.Date_parse d)
         end) /\
  (forall row,
     In row (mounted_rows now window s') ->
     exists i item,
       In i window /\
       nth_error data i = Some item /\
       nth_error (list_cells now s') i = Some row) /\
  List.length (mounted_rows now window s') <= List.length window /\
  List.length (mounted_rows now first_batch s') =
    Nat.min (List.length data) 10.
Proof.
  intros Hp s'.
  assert (Hs' : tasks s' = data).
  { subst s'. simpl. now rewrite settle_fulfilled_screen. }
  assert (Hrows : list_cells now s' = map (renderItem now) data).
  { now rewrite list_cells_map, Hs'. }
  rewrite Hrows. split; [apply length_map |]. split; [| split; [| split]].
  - intros i item Hi. exists (renderItem now item). split.
    + now apply map_nth_error.
    + split; [reflexivity |]. apply formattedDate_cases.
  - intros row Hin. apply mounted_rows_In in Hin.
    destruct Hin as (i & item & Hi & Hn & Hrow). rewrite Hs' in Hn.
    exists i, item. repeat split; try assumption.
    subst row. now apply map_nth_error.
  - apply mounted_rows_length.
  - unfold first_batch, initialNumToRender.
    rewrite mounted_seq_length, Hs'. lia.
Qed.

Lemma response_rows_witness :
  is_pending 0 mount = true /\
  List.length (list_cells 2000
    (screen (step (Settle 0 (Fulfilled [milk; bread; taxes])) mount))) = 3 /\
  List.length (mounted_rows 2000 first_batch
    (screen (step (Settle 0 (Fulfilled [milk; bread; taxes])) mount))) =
  Nat.min 3 10.
Proof.
  split; [reflexivity |].
  destruct (response_rows 2000 mount 0 [milk; bread; taxes] first_batch
              eq_refl) as (Hlen & _ & _ & _ & Hfirst).
  split; [exact Hlen | exact Hfirst].
Defined.

(** C6. With an empty task list, the spinner replaces the list while the
    loading flag is true; once it is false, as after an empty response, the
    empty-state message is rendered and no row is. *)
Theorem empty_list_rendering `{JS.Date}
    (now : Z) (s : State) (w : World) (r : nat) :
  (tasks s = [] ->
   loading s = true ->
   content (HomeScreen now s) = ActivityIndicator Theme.primary /\
   list_cells now s = [] /\
   forall window, mounted_rows now window s = [])
  /\
  (tasks s = [] ->
   loading s = false ->
   spinner_shown now s = false /\
   empty_message_shown now s =
     Some "Henüz görev yok. Yeni bir görev ekleyin." /\
   list_cells now s = [] /\
   forall window, mounted_rows now window s = [])
  /\
  (is_pending r w = true ->
   let s' := screen (step (Settle r (Fulfilled [])) w) in
   tasks s' = [] /\ loading s' = false).
Proof.
  split; [| split].
  - intros Ht Hl. rewrite list_cells_map, Ht.
    unfold HomeScreen, shows_spinner. cbn [content]. rewrite Ht, Hl.
    repeat split. intros window. now apply mounted_rows_no_tasks.
  - intros Ht Hl. rewrite list_cells_map.
    unfold spinner_shown, empty_message_shown, HomeScreen, shows_spinner.
    cbn [content]. rewrite Ht, Hl. repeat split.
    intros window. now apply mounted_rows_no_tasks.
  - intros Hp s'. subst s'. simpl.
    rewrite settle_fulfilled_screen by assumption. split; reflexivity.
Qed.

Lemma empty_list_rendering_witness :
  (tasks (screen mount) = [] /\
   loading (screen mount) = true /\
   content (HomeScreen 2000 (screen mount)) = ActivityIndicator Theme.primary)
  /\
  (is_pending 0 mount = true /\
   tasks (screen (step (Settle 0 (Fulfilled [])) mount)) = [] /\
   loading (screen (step (Settle 0 (Fulfilled [])) mount)) = false /\
   list_cells 2000 (screen (step (Settle 0 (Fulfilled [])) mount)) = []).
Proof.
  split.
  - repeat (split; [reflexivity |]).
    destruct (empty_list_rendering 2000 (screen mount) mount 0)
      as [Hspin _].
    destruct (Hspin eq_refl eq_refl) as [Hc _]. exact Hc.
  - repeat (split; [reflexivity |]).
    destruct (empty_list_rendering 2000
                (screen (step (Settle 0 (Fulfilled [])) mount)) mount 0)
      as (_ & Hempty & _).
    destruct (Hempty eq_refl eq_refl) as (_ & _ & Hrows & _). exact Hrows.
Defined.

(** C8. Pressing a row calls [navigate] with the [detail] route and exactly
    that row's task id as [taskId]; pressing the add button, in any state,
    calls [navigate] with the [add] route and no parameters; the route
    table gives [detail] the parameters [{ taskId: string }] and gives
    [add] and [home] none, and both calls conform to it. *)
Theorem navigation_contract `{JS.Date}
    (now : Z) (w : World) (i : nat) (item : Task) :
  let to_detail :=
    AppNavigator.navigate AppNavigator.detail (Some [("taskId", id item)]) in
  let to_add := AppNavigator.navigate AppNavigator.add None in
  (nth_error (tasks (screen w)) i = Some item ->
   (exists row,
      nth_error (list_cells now (screen w)) i = Some row /\
      card_onPress row = DoNavigate to_detail /\
      perform (card_onPress row) w = step (PressRow i) w) /\
   navigations (step (PressRow i) w) = (navigations w ++ [to_detail])%list)
  /\
  fab_action (HomeScreen now (screen w)) = DoNavigate to_add /\
  perform (fab_action (HomeScreen now (screen w))) w = step PressFAB w /\
  navigations (step PressFAB w) = (navigations w ++ [to_add])%list /\
  AppNavigator.conforms to_detail = true /\
  AppNavigator.conforms to_add = true /\
  AppNavigator.RootStackParamList AppNavigator.detail =
    AppNavigator.TObject [("taskId", AppNavigator.TString)] /\
  AppNavigator.RootStackParamList AppNavigator.add = AppNavigator.TUndefined /\
  AppNavigator.RootStackParamList AppNavigator.home = AppNavigator.TUndefined.
Proof.
  intros to_detail to_add. split; [| repeat split].
  intros Hi.
  assert (Hs : shows_spinner (screen w) = false)
    by now apply (shows_spinner_nonempty (screen w) i item).
  assert (Hstep : step (PressRow i) w =
                  navigation_navigate to_detail w).
  { simpl. rewrite Hs, Hi. reflexivity. }
  split.
  - exists (renderItem now item). split.
    + rewrite list_cells_map. now apply map_nth_error.
    + split; [reflexivity |]. rewrite Hstep. reflexivity.
  - rewrite Hstep. reflexivity.
Qed.

Lemma navigation_contract_witness :
  nth_error
    (tasks (screen (step (Settle 0 (Fulfilled [milk; bread])) mount))) 1 =
    Some bread /\
  navigations
    (step (PressRow 1) (step (Settle 0 (Fulfilled [milk; bread])) mount)) =
    [AppNavigator.navigate AppNavigator.detail (Some [("taskId", "t2")])] /\
  navigations (step PressFAB mount) =
    [AppNavigator.navigate AppNavigator.add None].
Proof.
  split; [reflexivity |].
  destruct (navigation_contract 2000
              (step (Settle 0 (Fulfilled [milk; bread])) mount) 1 bread)
    as (Hrow & _).
  destruct (Hrow eq_refl) as (_ & Hnav).
  destruct (navigation_contract 2000 mount 0 milk)
    as (_ & _ & _ & Hfab & _).
  split; [exact Hnav | exact Hfab].
Defined.

(** ** The request URL *)

Lemma before_length (c : ascii) (s : string) :
  String.length (URL.before c s) <= String.length s.
Proof.
  induction s as [| a s IH]; simpl; [lia |].
  destruct (Ascii.eqb a c); simpl; lia.
Qed.

Lemma before_occurs_length (c : ascii) (s : string) :
  URL.occurs c s = true ->
  String.length (URL.before c s) < String.length s.
Proof.
  induction s as [| a s IH]; simpl; [discriminate |].
  destruct (Ascii.eqb a c); simpl; [lia |].
  intros Ho. apply IH in Ho. lia.
Qed.

Lemma before_absent (c : ascii) (s : string) :
  URL.occurs c s = false -> URL.before c s = s.
Proof.
  induction s as [| a s IH]; simpl; [reflexivity |].
  destruct (Ascii.eqb a c); simpl; [discriminate |].
  intros Ho. now rewrite IH.
Qed.

Lemma split_head (c : ascii) (s : string) :
  exists tl, URL.split c s = URL.before c s :: tl.
Proof.
  induction s as [| a s [tl IH]]; simpl.
  - now exists [].
  - destruct (Ascii.eqb a c); [eauto |].
    rewrite IH. eauto.
Qed.

(** Decoding never lengthens: [+] maps to one byte, [%XY] to one byte. *)
Lemma decode_length_upto (n : nat) :
  forall s, String.length s <= n ->
            String.length (URL.decode s) <= String.length s.
Proof.
  induction n as [| n IH]; intros s Hn.
  - destruct s; simpl in *; lia.
  - destruct s as [| a s']; [simpl; lia |].
    simpl in Hn.
    assert (Hs' : String.length (URL.decode s') <= String.length s')
      by (apply IH; lia).
    cbn [URL.decode].
    destruct (Ascii.eqb a "+"); [simpl; lia |].
    destruct (Ascii.eqb a "%"); [| simpl; lia].
    destruct s' as [| h [| l s'']]; try (simpl in *; lia).
    destruct (URL.hex_value h); [| simpl in *; lia].
    destruct (URL.hex_value l); [| simpl in *; lia].
    assert (Hs'' : String.length (URL.decode s'') <= String.length s'')
      by (apply IH; simpl in Hn; lia).
    simpl. lia.
Qed.

Lemma decode_length (s : string) :
  String.length (URL.decode s) <= String.length s.
Proof. apply (decode_length_upto (String.length s)). lia. Qed.

Lemma strip_trailing_app (p t : string) :
  URL.strip_trailing (p ++ t) =
  match URL.strip_trailing t with
  | EmptyString => URL.strip_trailing p
  | String b r => p ++ String b r
  end.
Proof.
  induction p as [| a p IH]; simpl.
  - destruct (URL.strip_trailing t); reflexivity.
  - rewrite IH. destruct (URL.strip_trailing t) as [| b r]; [reflexivity |].
    destruct p; reflexivity.
Qed.

Lemma remove_tab_newline_app (p t : string) :
  URL.remove_tab_newline (p ++ t) =
  URL.remove_tab_newline p ++ URL.remove_tab_newline t.
Proof.
  induction p as [| a p IH]; simpl; [reflexivity |].
  rewrite IH. destruct (URL.is_tab_or_newline a); reflexivity.
Qed.

Lemma strip_trailing_length (t : string) :
  String.length (URL.strip_trailing t) <= String.length t.
Proof.
  induction t as [| a t IH]; simpl; [lia |].
  destruct (URL.strip_trailing t) as [| b r]; simpl in *.
  - destruct (URL.is_c0_or_space a); simpl; lia.
  - lia.
Qed.

Lemma remove_tab_newline_length (t : string) :
  String.length (URL.remove_tab_newline t) <= String.length t.
Proof.
  induction t as [| a t IH]; simpl; [lia |].
  destruct (URL.is_tab_or_newline a); simpl; lia.
Qed.

Lemma occurs_strip_trailing (c : ascii) (t : string) :
  URL.is_c0_or_space c = false ->
  URL.occurs c (URL.strip_trailing t) = URL.occurs c t.
Proof.
  intros Hc. induction t as [| a t IH]; simpl; [reflexivity |].
  destruct (URL.strip_trailing t) as [| b r].
  - simpl in IH. rewrite <- IH, orb_false_r.
    destruct (URL.is_c0_or_space a) eqn:Ha; simpl.
    + destruct (Ascii.eqb a c) eqn:He; [| reflexivity].
      apply Ascii.eqb_eq in He. subst a. congruence.
    + now rewrite orb_false_r.
  - cbn [URL.occurs] in *. now rewrite IH.
Qed.

Lemma occurs_remove_tab_newline (c : ascii) (t : string) :
  URL.is_tab_or_newline c = false ->
  URL.occurs c (URL.remove_tab_newline t) = URL.occurs c t.
Proof.
  intros Hc. induction t as [| a t IH]; simpl; [reflexivity |].
  destruct (URL.is_tab_or_newline a) eqn:Ha; simpl; rewrite IH.
  - destruct (Ascii.eqb a c) eqn:He; [| reflexivity].
    apply Ascii.eqb_eq in He. subst a. congruence.
  - reflexivity.
Qed.

(** The request URL as the parser sees it: only the term can lose
    characters, its trailing blanks and its tabs and newlines. *)
Lemma clean_request_url (t : string) :
  URL.clean (request_url t) =
  Theme.API_URL ++ "?search=" ++
  URL.remove_tab_newline (URL.strip_trailing t).
Proof.
  unfold URL.clean.
  change (request_url t)
    with ("http://10.0.2.2:3000/api/tasks?search=" ++ t).
  assert (Hlead :
    URL.strip_leading ("http://10.0.2.2:3000/api/tasks?search=" ++ t) =
    "http://10.0.2.2:3000/api/tasks?search=" ++ t) by reflexivity.
  rewrite Hlead, strip_trailing_app.
  destruct (URL.strip_trailing t) as [| b r]; [reflexivity |].
  rewrite remove_tab_newline_app. reflexivity.
Qed.

Lemma query_request_url (t : string) :
  URL.query (request_url t) =
  Some ("search=" ++
        URL.before "#" (URL.remove_tab_newline (URL.strip_trailing t))).
Proof.
  unfold URL.query. rewrite clean_request_url. reflexivity.
Qed.

Lemma parse_query_search (x : string) :
  exists rest,
    URL.parse_query ("search=" ++ x) =
    ("search", URL.decode (URL.before "&" x)) :: rest.
Proof.
  unfold URL.parse_query.
  destruct (split_head "&" x) as [tl Hx].
  assert (Hsplit : URL.split "&" ("search=" ++ x) =
                   ("search=" ++ URL.before "&" x) :: tl).
  { simpl. rewrite Hx. reflexivity. }
  rewrite Hsplit. simpl. eauto.
Qed.

(** What is read back from the request for term [t]: the term without its
    trailing blanks, tabs and newlines, cut at its first [#] or [&], then
    decoded. *)
Lemma search_param_request_url (t : string) :
  URL.search_param (request_url t) =
  Some (URL.decode
          (URL.before "&"
             (URL.before "#"
                (URL.remove_tab_newline (URL.strip_trailing t))))).
Proof.
  unfold URL.search_param. rewrite query_request_url.
  destruct (parse_query_search
              (URL.before "#"
                 (URL.remove_tab_newline (URL.strip_trailing t))))
    as [rest Hq].
  rewrite Hq. reflexivity.
Qed.

(** A space inside the term is read back as typed; a trailing one is lost
    with the other trailing blanks. *)
Lemma spaces_read_back :
  URL.search_param (request_url "a b") = Some "a b" /\
  URL.search_param (request_url "milk ") = Some "milk".
Proof. split; reflexivity. Qed.

(** C10, as stated, fails for [=]: the request for the term [a=b] is read
    back as [a=b], because a pair is cut at its first [=] only. *)
Lemma equals_sign_is_read_back_unchanged :
  ~ (forall t : string,
       request_url t = Theme.API_URL ++ "?search=" ++ t /\
       (URL.occurs "&" t || URL.occurs "#" t
          || URL.occurs "=" t || URL.occurs " " t = true ->
        URL.search_param (request_url t) <> Some t)).
Proof.
  intros Hclaim. destruct (Hclaim "a=b") as [_ Hdiffer].
  apply Hdiffer; reflexivity.
Qed.

(** C10, amended.  The request URL is the base URL, then [?search=], then
    the term exactly as typed.  Hence a term containing [&] or [#] is read
    back as something else. *)
Theorem request_url_is_plain_concatenation (t : string) :
  request_url t = Theme.API_URL ++ "?search=" ++ t /\
  (URL.occurs "&" t || URL.occurs "#" t = true ->
   URL.search_param (request_url t) <> Some t).
Proof.
  split; [reflexivity |]. rewrite search_param_request_url.
  set (t' := URL.remove_tab_newline (URL.strip_trailing t)).
  intros Hsp Heq. injection Heq as Heq.
  assert (Hamp' : URL.occurs "&" t' = URL.occurs "&" t).
  { unfold t'. rewrite occurs_remove_tab_newline by reflexivity.
    now apply occurs_strip_trailing. }
  assert (Hhash' : URL.occurs "#" t' = URL.occurs "#" t).
  { unfold t'. rewrite occurs_remove_tab_newline by reflexivity.
    now apply occurs_strip_trailing. }
  assert (Hshort : String.length t' <= String.length t).
  { unfold t'.
    pose proof (remove_tab_newline_length (URL.strip_trailing t)).
    pose proof (strip_trailing_length t). lia. }
  rewrite <- Hamp', <- Hhash' in Hsp.
  assert (Hlen : String.length (URL.before "&" (URL.before "#" t'))
                 < String.length t').
  { pose proof (before_length "&" (URL.before "#" t')) as Hamp.
    pose proof (before_length "#" t') as Hhash.
    destruct (URL.occurs "#" t') eqn:Ho.
    - pose proof (before_occurs_length "#" t' Ho). lia.
    - rewrite orb_false_r in Hsp.
      rewrite (before_absent "#" t' Ho).
      now apply before_occurs_length. }
  pose proof (decode_length (URL.before "&" (URL.before "#" t'))) as Hdec.
  rewrite Heq in Hdec. lia.
Qed.

Lemma request_url_is_plain_concatenation_witness :
  URL.occurs "&" "milk&eggs" || URL.occurs "#" "milk&eggs" = true /\
  request_url "milk&eggs" =
    "http://10.0.2.2:3000/api/tasks?search=milk&eggs" /\
  URL.search_param (request_url "milk&eggs") <> Some "milk&eggs".
Proof.
  split; [reflexivity |].
  destruct (request_url_is_plain_concatenation "milk&eggs")
    as [Hurl Hcut].
  split; [exact Hurl | apply Hcut; reflexivity].
Defined.

(** * Further properties of the screen *)

(** ** The bookkeeping invariant *)

Lemma filter_out_shorter (r : nat) (l : list nat) :
  In r l ->
  List.length (filter (fun j => negb (j =? r)%nat) l) < List.length l.
Proof.
  induction l as [| a l IH]; simpl; [contradiction |].
  pose proof (filter_length_le (fun j => negb (j =? r)%nat) l) as Hle.
  intros [Ha | Hin].
  - subst a. rewrite Nat.eqb_refl. simpl. lia.
  - apply IH in Hin. destruct (a =? r)%nat; simpl; lia.
Qed.

Lemma consistent_unmounted : consistent unmounted.
Proof.
  constructor; simpl; try constructor. discriminate.
Qed.

Lemma consistent_fetchTasks (q : string) (w : World) :
  consistent w -> consistent (fetchTasks q w).
Proof.
  intros [Hnd Hlog Hgen Hbound Hload]. constructor; simpl.
  - apply NoDup_app; [assumption | repeat constructor; intros [] |].
    intros a Ha [Heq | []]. subst a.
    rewrite Forall_forall in Hlog. apply Hlog in Ha. lia.
  - rewrite length_app. simpl. apply Forall_app. split.
    + eapply Forall_impl; [| exact Hlog]. simpl. intros; lia.
    + repeat constructor. lia.
  - assumption.
  - rewrite !length_app. simpl. lia.
  - intros _ Hnil. apply app_eq_nil in Hnil.
    destruct Hnil as [_ Hnil]. discriminate Hnil.
Qed.

Lemma consistent_setSearchTerm (t : string) (w : World) :
  consistent w -> consistent (with_screen (setSearchTerm t) w).
Proof.
  intros [Hnd Hlog Hgen Hbound Hload]. constructor; assumption.
Qed.

Lemma consistent_navigate (c : AppNavigator.NavCall) (w : World) :
  consistent w -> consistent (navigation_navigate c w).
Proof.
  intros [Hnd Hlog Hgen Hbound Hload]. constructor; assumption.
Qed.

Lemma consistent_settle (r : nat) (o : Outcome) (w : World) :
  consistent w -> consistent (settle r o w).
Proof.
  intros Hw. unfold settle. destruct (is_pending r w) eqn:Hp; [| assumption].
  apply is_pending_In in Hp. apply filter_out_shorter in Hp.
  destruct Hw as [Hnd Hlog Hgen Hbound Hload].
  assert (Hsub : Forall (fun j => j < List.length (requests w))
                   (filter (fun j => negb (j =? r)%nat) (pending w))).
  { apply Forall_forall. intros j Hj. apply filter_In in Hj.
    rewrite Forall_forall in Hlog. now apply Hlog. }
  destruct o as [data |]; constructor; simpl;
    try (now apply NoDup_filter); try assumption; try lia;
    try discriminate.
  - apply Forall_app. split; [assumption | repeat constructor].
  - rewrite length_app. simpl. lia.
Qed.

Lemma consistent_step (e : Event) (w : World) :
  consistent w -> consistent (step e w).
Proof.
  intros Hw. destruct e as [term | | | r o | i |]; simpl.
  - unfold handleSearch. destruct (searchTerm (screen w) =? term).
    + now apply consistent_setSearchTerm.
    + now apply consistent_fetchTasks, consistent_setSearchTerm.
  - now apply consistent_fetchTasks.
  - destruct (shows_spinner (screen w)); [assumption |].
    now apply consistent_fetchTasks.
  - now apply consistent_settle.
  - destruct (shows_spinner (screen w)); [assumption |].
    destruct (nth_error (tasks (screen w)) i); [| assumption].
    now apply consistent_navigate.
  - now apply consistent_navigate.
Qed.

Lemma consistent_run (evs : list Event) :
  forall w, consistent w -> consistent (run evs w).
Proof.
  induction evs as [| e evs IH]; intros w Hw; [assumption |].
  rewrite run_cons. now apply IH, consistent_step.
Qed.

Lemma consistent_reachable (evs : list Event) : consistent (run evs mount).
Proof.
  apply consistent_run. apply consistent_fetchTasks, consistent_unmounted.
Qed.

(** X1. Whatever happens after mount, the pending requests are distinct
    entries of the request log, every alert shown is the generic one, and
    there are never more alerts than requests that are no longer pending. *)
Theorem alerts_never_exceed_settled_requests (evs : list Event) :
  let w := run evs mount in
  NoDup (pending w) /\
  Forall (fun r => exists url, nth_error (requests w) r = Some url)
    (pending w) /\
  Forall (fun a => a = ("Hata", "Görevler yüklenirken bir sorun oluştu."))
    (alerts w) /\
  List.length (alerts w) + List.length (pending w)
    <= List.length (requests w).
Proof.
  destruct (consistent_reachable evs) as [Hnd Hlog Hgen Hbound _].
  repeat split; try assumption.
  eapply Forall_impl; [| exact Hlog]. simpl. intros r Hr.
  destruct (nth_error (requests (run evs mount)) r) as [url |] eqn:Hn.
  - now exists url.
  - apply nth_error_None in Hn. lia.
Qed.

(** X2. Once no request is pending any more, the loading flag is false: the
    flag never stays set after the last response. *)
Theorem idle_screen_is_not_loading (evs : list Event) :
  pending (run evs mount) = [] ->
  loading (screen (run evs mount)) = false.
Proof.
  intros Hidle. destruct (consistent_reachable evs) as [_ _ _ _ Hload].
  destruct (loading (screen (run evs mount))); [| reflexivity].
  exfalso. now apply Hload.
Qed.

Lemma idle_screen_is_not_loading_witness :
  pending (run [Focus; Settle 1 Rejected; Settle 0 (Fulfilled [milk])]
             mount) = [] /\
  loading (screen
    (run [Focus; Settle 1 Rejected; Settle 0 (Fulfilled [milk])] mount))
  = false.
Proof.
  split; [reflexivity |].
  apply (idle_screen_is_not_loading
           [Focus; Settle 1 Rejected; Settle 0 (Fulfilled [milk])]).
  reflexivity.
Defined.

(** ** The request log *)





(** X5. Typing the term the screen already holds changes nothing: no
    request is issued and the state is the same. *)
Theorem retyping_current_term_is_ignored (w : World) :
  step (ChangeText (searchTerm (screen w))) w = w.
Proof.
  simpl. unfold handleSearch. rewrite String.eqb_refl.
  destruct w as [[ts l term] reqs pend als navs]. reflexivity.
Qed.

Lemma last_cons_default (l : list string) :
  forall a d, last (a :: l) d = last l a.
Proof.
  induction l as [| b l IH]; intros a d; [reflexivity |].
  change (last (a :: b :: l) d) with (last (b :: l) d).
  now rewrite !IH.
Qed.

(** X6. There is no debounce: a burst of keystrokes, each producing a term
    different from the one before it, issues one request per keystroke, in
    order, leaves all of them pending and leaves the list as it was. *)
Theorem every_keystroke_issues_a_request (terms : list string) :
  forall w,
    each_differs (searchTerm (screen w)) terms = true ->
    let w' := run (map ChangeText terms) w in
    requests w' = (requests w ++ map request_url terms)%list /\
    List.length (pending w') =
      List.length (pending w) + List.length terms /\
    searchTerm (screen w') = last terms (searchTerm (screen w)) /\
    tasks (screen w') = tasks (screen w).
Proof.
  induction terms as [| t rest IH]; intros w Hd; simpl in Hd.
  - simpl. rewrite app_nil_r. repeat split. lia.
  - apply andb_true_iff in Hd. destruct Hd as [Hne Hd].
    apply negb_true_iff in Hne.
    assert (Hstep : step (ChangeText t) w =
                    fetchTasks t (with_screen (setSearchTerm t) w)).
    { simpl. unfold handleSearch. now rewrite Hne. }
    cbn zeta. rewrite map_cons, run_cons, Hstep.
    specialize (IH (fetchTasks t (with_screen (setSearchTerm t) w)) Hd).
    cbn zeta in IH. destruct IH as (Hreq & Hpend & Hterm & Htasks).
    rewrite Hreq, Hpend, Hterm, Htasks.
    rewrite fetchTasks_requests, fetchTasks_pending, length_app.
    rewrite <- app_assoc. rewrite (last_cons_default rest t).
    simpl. repeat split. lia.
Qed.

Lemma every_keystroke_issues_a_request_witness :
  each_differs (searchTerm (screen mount)) ["m"; "mi"; "mil"] = true /\
  requests (run (map ChangeText ["m"; "mi"; "mil"]) mount) =
    ["http://10.0.2.2:3000/api/tasks?search=";
     "http://10.0.2.2:3000/api/tasks?search=m";
     "http://10.0.2.2:3000/api/tasks?search=mi";
     "http://10.0.2.2:3000/api/tasks?search=mil"].
Proof.
  split; [reflexivity |].
  destruct (every_keystroke_issues_a_request ["m"; "mi"; "mil"] mount
              eq_refl) as [Hreq _].
  exact Hreq.
Defined.

(** ** Responses *)

Lemma settle_searchTerm (r : nat) (o : Outcome) (w : World) :
  searchTerm (screen (settle r o w)) = searchTerm (screen w).
Proof.
  unfold settle. destruct (is_pending r w); [| reflexivity].
  destruct o; reflexivity.
Qed.

(** X7. Responses are applied in the order they arrive, not the order the
    requests were issued: of two pending requests, the list ends up as the
    body of whichever settles last, and the search term is untouched. *)
Theorem last_response_wins
    (w : World) (r1 r2 : nat) (d1 d2 : list Task) :
  r1 <> r2 ->
  is_pending r1 w = true ->
  is_pending r2 w = true ->
  let first_then_second :=
    run [Settle r1 (Fulfilled d1); Settle r2 (Fulfilled d2)] w in
  let second_then_first :=
    run [Settle r2 (Fulfilled d2); Settle r1 (Fulfilled d1)] w in
  tasks (screen first_then_second) = d2 /\
  tasks (screen second_then_first) = d1 /\
  searchTerm (screen first_then_second) = searchTerm (screen w) /\
  searchTerm (screen second_then_first) = searchTerm (screen w).
Proof.
  intros Hne Hp1 Hp2 a b. subst a b.
  assert (H12 : (r1 =? r2)%nat = false) by now apply Nat.eqb_neq.
  assert (H21 : (r2 =? r1)%nat = false)
    by (apply Nat.eqb_neq; congruence).
  split; [| split; [| split]].
  - apply (fulfilled_after_trace r2 d2 [Settle r1 (Fulfilled d1)] w Hp2).
    simpl. now rewrite H12.
  - apply (fulfilled_after_trace r1 d1 [Settle r2 (Fulfilled d2)] w Hp1).
    simpl. now rewrite H21.
  - simpl. now rewrite !settle_searchTerm.
  - simpl. now rewrite !settle_searchTerm.
Qed.

Lemma last_response_wins_witness :
  0 <> 1 /\
  is_pending 0 (step (ChangeText "milk") mount) = true /\
  is_pending 1 (step (ChangeText "milk") mount) = true /\
  tasks (screen
    (run [Settle 1 (Fulfilled [milk]); Settle 0 (Fulfilled [bread; taxes])]
       (step (ChangeText "milk") mount))) = [bread; taxes] /\
  searchTerm (screen
    (run [Settle 1 (Fulfilled [milk]); Settle 0 (Fulfilled [bread; taxes])]
       (step (ChangeText "milk") mount))) = "milk".
Proof.
  split; [discriminate |]. split; [reflexivity |]. split; [reflexivity |].
  destruct (last_response_wins (step (ChangeText "milk") mount) 0 1
              [bread; taxes] [milk])
    as (_ & Hstale & _ & Hterm); try reflexivity; [discriminate |].
  split; [exact Hstale | exact Hterm].
Defined.

Lemma step_keeps_tasks (e : Event) (w : World) :
  is_fulfilled e = false ->
  tasks (screen (step e w)) = tasks (screen w).
Proof.
  intros He. destruct e as [term | | | r o | i |]; simpl.
  - unfold handleSearch.
    destruct (searchTerm (screen w) =? term); reflexivity.
  - reflexivity.
  - destruct (shows_spinner (screen w)); reflexivity.
  - destruct o as [data |]; [discriminate |].
    unfold settle. destruct (is_pending r w); reflexivity.
  - destruct (shows_spinner (screen w)); [reflexivity |].
    destruct (nth_error (tasks (screen w)) i); reflexivity.
  - reflexivity.
Qed.

(** X8. The task list changes only when a response is fulfilled: typing,
    focus, pull-to-refresh, presses and failed requests all leave it as it
    is. *)
Theorem tasks_change_only_on_response (evs : list Event) :
  forall w,
    forallb (fun e => negb (is_fulfilled e)) evs = true ->
    tasks (screen (run evs w)) = tasks (screen w).
Proof.
  induction evs as [| e evs IH]; intros w Hq; [reflexivity |].
  simpl in Hq. apply andb_true_iff in Hq. destruct Hq as [He Hq].
  apply negb_true_iff in He.
  rewrite run_cons, (IH _ Hq). now apply step_keeps_tasks.
Qed.

Lemma tasks_change_only_on_response_witness :
  forallb (fun e => negb (is_fulfilled e))
    [ChangeText "x"; Settle 1 Rejected; Focus; PressRow 0] = true /\
  tasks (screen
    (run [ChangeText "x"; Settle 1 Rejected; Focus; PressRow 0]
       (step (Settle 0 (Fulfilled [milk; bread])) mount))) = [milk; bread].
Proof.
  split; [reflexivity |].
  apply (tasks_change_only_on_response
           [ChangeText "x"; Settle 1 Rejected; Focus; PressRow 0]
           (step (Settle 0 (Fulfilled [milk; bread])) mount)).
  reflexivity.
Defined.

Lemma step_keeps_searchTerm (e : Event) (w : World) :
  is_change e = false ->
  searchTerm (screen (step e w)) = searchTerm (screen w).
Proof.
  intros He. destruct e as [term | | | r o | i |]; simpl;
    try discriminate; try reflexivity.
  - destruct (shows_spinner (screen w)); reflexivity.
  - apply settle_searchTerm.
  - destruct (shows_spinner (screen w)); [reflexivity |].
    destruct (nth_error (tasks (screen w)) i); reflexivity.
Qed.

(** X9. The search term changes only through the search field: responses,
    failures, focus, pull-to-refresh and presses never reset it. *)
Theorem search_term_changes_only_by_typing (evs : list Event) :
  forall w,
    forallb (fun e => negb (is_change e)) evs = true ->
    searchTerm (screen (run evs w)) = searchTerm (screen w).
Proof.
  induction evs as [| e evs IH]; intros w Hq; [reflexivity |].
  simpl in Hq. apply andb_true_iff in Hq. destruct Hq as [He Hq].
  apply negb_true_iff in He.
  rewrite run_cons, (IH _ Hq). now apply step_keeps_searchTerm.
Qed.

Lemma search_term_changes_only_by_typing_witness :
  forallb (fun e => negb (is_change e))
    [Settle 1 (Fulfilled []); Focus; Settle 0 Rejected; PressFAB] = true /\
  searchTerm (screen
    (run [Settle 1 (Fulfilled []); Focus; Settle 0 Rejected; PressFAB]
       (step (ChangeText "milk") mount))) = "milk".
Proof.
  split; [reflexivity |].
  apply (search_term_changes_only_by_typing
           [Settle 1 (Fulfilled []); Focus; Settle 0 Rejected; PressFAB]
           (step (ChangeText "milk") mount)).
  reflexivity.
Defined.

(** X10. When a request fails while the list is empty, as when the first
    fetch after mount fails, the screen leaves the spinner and shows the
    empty-state message, even if other requests are still pending. *)
Theorem failure_on_empty_list_shows_empty_message `{JS.Date}
    (now : Z) (w : World) (r : nat) :
  is_pending r w = true ->
  tasks (screen w) = [] ->
  let s' := screen (step (Settle r Rejected) w) in
  loading s' = false /\
  spinner_shown now s' = false /\
  empty_message_shown now s' =
    Some "Henüz görev yok. Yeni bir görev ekleyin." /\
  list_cells now s' = [] /\
  forall window, mounted_rows now window s' = [].
Proof.
  intros Hp Ht s'.
  assert (Hs : s' = {| tasks := []; loading := false;
                       searchTerm := searchTerm (screen w) |}).
  { subst s'. cbn [step]. unfold settle. rewrite Hp.
    unfold fetchTasks_resume, with_screen, Alert_alert, setLoading.
    cbn [screen tasks searchTerm]. now rewrite Ht. }
  rewrite Hs. repeat split.
  intros window. now apply mounted_rows_no_tasks.
Qed.

Lemma failure_on_empty_list_shows_empty_message_witness :
  is_pending 0 (step Focus mount) = true /\
  tasks (screen (step Focus mount)) = [] /\
  pending (step (Settle 0 Rejected) (step Focus mount)) = [1] /\
  spinner_shown 2000
    (screen (step (Settle 0 Rejected) (step Focus mount))) = false.
Proof.
  split; [reflexivity |]. split; [reflexivity |]. split; [reflexivity |].
  destruct (failure_on_empty_list_shows_empty_message 2000
              (step Focus mount) 0 eq_refl eq_refl) as (_ & Hspin & _).
  exact Hspin.
Defined.

(** ** Navigation and presses *)

Lemma step_navigations (e : Event) (w : World) :
  navigations (step e w) = navigations w \/
  exists c,
    navigations (step e w) = (navigations w ++ [c])%list /\
    AppNavigator.conforms c = true /\
    AppNavigator.nav_name c <> AppNavigator.home.
Proof.
  destruct e as [term | | | r o | i |]; simpl.
  - left. unfold handleSearch.
    destruct (searchTerm (screen w) =? term); reflexivity.
  - now left.
  - left. destruct (shows_spinner (screen w)); reflexivity.
  - left. unfold settle. destruct (is_pending r w); [| reflexivity].
    destruct o; reflexivity.
  - destruct (shows_spinner (screen w)); [now left |].
    destruct (nth_error (tasks (screen w)) i) as [item |]; [| now left].
    right. eexists. split; [reflexivity |]. split; [reflexivity |].
    discriminate.
  - right. eexists. split; [reflexivity |]. split; [reflexivity |].
    discriminate.
Qed.

(** X11. Every navigation call the screen ever makes has the parameters
    the route table asks for, and the screen never navigates to [home]. *)
Theorem every_navigation_conforms (evs : list Event) :
  Forall (fun c => AppNavigator.conforms c = true /\
                   AppNavigator.nav_name c <> AppNavigator.home)
    (navigations (run evs mount)).
Proof.
  assert (Hgen : forall w,
    Forall (fun c => AppNavigator.conforms c = true /\
                     AppNavigator.nav_name c <> AppNavigator.home)
      (navigations w) ->
    Forall (fun c => AppNavigator.conforms c = true /\
                     AppNavigator.nav_name c <> AppNavigator.home)
      (navigations (run evs w))).
  { induction evs as [| e evs IH]; intros w Hw; [assumption |].
    rewrite run_cons. apply IH.
    destruct (step_navigations e w) as [Hsame | (c & Hc & Hok & Hname)].
    - now rewrite Hsame.
    - rewrite Hc. apply Forall_app. split; [assumption |].
      repeat constructor; assumption. }
  apply Hgen. constructor.
Qed.

(** X12. A press does nothing but navigate: it starts no request, shows no
    alert and leaves the state alone; and no other event navigates. *)
Theorem presses_only_navigate (e : Event) (w : World) :
  (is_press e = true ->
   screen (step e w) = screen w /\
   requests (step e w) = requests w /\
   pending (step e w) = pending w /\
   alerts (step e w) = alerts w)
  /\
  (is_press e = false ->
   navigations (step e w) = navigations w).
Proof.
  split; intros He; destruct e as [term | | | r o | i |];
    try discriminate; simpl.
  - destruct (shows_spinner (screen w)); [repeat split |].
    destruct (nth_error (tasks (screen w)) i); repeat split.
  - repeat split.
  - unfold handleSearch.
    destruct (searchTerm (screen w) =? term); reflexivity.
  - reflexivity.
  - destruct (shows_spinner (screen w)); reflexivity.
  - unfold settle. destruct (is_pending r w); [| reflexivity].
    destruct o; reflexivity.
Qed.

Lemma presses_only_navigate_witness :
  (is_press (PressRow 0) = true /\
   requests (step (PressRow 0)
     (step (Settle 0 (Fulfilled [milk])) mount)) =
   requests (step (Settle 0 (Fulfilled [milk])) mount))
  /\
  (is_press Focus = false /\
   navigations (step Focus (step PressFAB mount)) =
   navigations (step PressFAB mount)).
Proof.
  split.
  - split; [reflexivity |].
    destruct (presses_only_navigate (PressRow 0)
                (step (Settle 0 (Fulfilled [milk])) mount)) as [Hpress _].
    destruct (Hpress eq_refl) as (_ & Hreq & _). exact Hreq.
  - split; [reflexivity |].
    destruct (presses_only_navigate Focus (step PressFAB mount))
      as [_ Hother].
    exact (Hother eq_refl).
Defined.

(** X13. Whenever the list is on screen, its refresh indicator mirrors the
    loading flag, and pulling to refresh starts exactly one fetch for the
    current search term while the stale list stays displayed. *)
Theorem pull_to_refresh_refetches `{JS.Date} (now : Z) (w : World) :
  shows_spinner (screen w) = false ->
  exists l,
    content (HomeScreen now (screen w)) = FlatListOf l /\
    refreshing l = loading (screen w) /\
    perform (onRefresh l) w = step PullToRefresh w /\
    requests (step PullToRefresh w) =
      (requests w ++ [request_url (searchTerm (screen w))])%list /\
    pending (step PullToRefresh w) =
      (pending w ++ [List.length (requests w)])%list /\
    list_cells now (screen (step PullToRefresh w)) =
      list_cells now (screen w) /\
    forall window,
      mounted_rows now window (screen (step PullToRefresh w)) =
      mounted_rows now window (screen w).
Proof.
  intros Hs. unfold HomeScreen. cbn [content]. rewrite Hs.
  eexists. split; [reflexivity |]. cbn [refreshing onRefresh FlatList].
  simpl step. rewrite Hs. repeat split.
  - rewrite !list_cells_map. reflexivity.
  - intros window. rewrite !mounted_rows_pick. reflexivity.
Qed.

Lemma pull_to_refresh_refetches_witness :
  shows_spinner (screen (step (Settle 0 (Fulfilled [milk])) mount))
    = false /\
  requests (step PullToRefresh
    (step (ChangeText "m") (step (Settle 0 (Fulfilled [milk])) mount))) =
    ["http://10.0.2.2:3000/api/tasks?search=";
     "http://10.0.2.2:3000/api/tasks?search=m";
     "http://10.0.2.2:3000/api/tasks?search=m"].
Proof.
  split; [reflexivity |].
  destruct (pull_to_refresh_refetches 2000
              (step (ChangeText "m")
                 (step (Settle 0 (Fulfilled [milk])) mount)) eq_refl)
    as (l & _ & _ & _ & Hreq & _).
  exact Hreq.
Defined.

(** ** More on cards *)

(** X14. A completed task is drawn with the check icon in the success
    colour and its title struck through in grey; an open task with the
    circle icon in the primary colour and a plain title in the text
    colour. *)
Theorem card_shows_completion `{JS.Date}
    (now : Z) (item : Task) (onTap : Action) :
  let c := TaskCard now item onTap in
  (completed item = true ->
   icon_name c = "check-circle" /\
   icon_color c = Theme.success /\
   style_resolve "color" (title_style c) = Some "#9CA3AF" /\
   style_resolve "textDecorationLine" (title_style c) = Some "line-through")
  /\
  (completed item = false ->
   icon_name c = "circle" /\
   icon_color c = Theme.primary /\
   style_resolve "color" (title_style c) = Some Theme.text /\
   style_resolve "textDecorationLine" (title_style c) = None).
Proof.
  intros c. subst c. unfold TaskCard.
  cbn [icon_name icon_color title_style].
  split; intros Hc; rewrite Hc; repeat split.
Qed.

Lemma card_shows_completion_witness :
  (completed taxes = true /\
   style_resolve "textDecorationLine"
     (title_style (TaskCard 2000 taxes (navigateToDetail "t3"))) =
   Some "line-through")
  /\
  (completed milk = false /\
   style_resolve "color"
     (title_style (TaskCard 2000 milk (navigateToDetail "t1"))) =
   Some Theme.text).
Proof.
  split.
  - split; [reflexivity |].
    destruct (card_shows_completion 2000 taxes (navigateToDetail "t3"))
      as [Hdone _].
    destruct (Hdone eq_refl) as (_ & _ & _ & Hline). exact Hline.
  - split; [reflexivity |].
    destruct (card_shows_completion 2000 milk (navigateToDetail "t1"))
      as [_ Hopen].
    destruct (Hopen eq_refl) as (_ & _ & Hcol & _). exact Hcol.
Defined.

(** X15. A card is flagged overdue exactly when its task has a non-empty
    due date that the host can read as a time strictly before now and the
    task is not completed: an unreadable date, a date equal to now or later,
    or a completed task is never flagged. *)
Theorem overdue_exactly_when `{JS.Date} (now : Z) (item : Task) :
  JS.ToBoolean (isOverdue now item) = true <->
  exists d t,
    dueDate item = Some d /\
    d <> EmptyString /\
    completed item = false /\
    JS.Date_parse d = Some t /\
    (t < now)%Z.
Proof.
  split.
  - unfold isOverdue, JS.and, JS.not, new_Date.
    destruct (dueDate item) as [d |]; simpl; [| discriminate].
    destruct (d =? EmptyString) eqn:He; simpl.
    + repeat (simpl; rewrite ?He). discriminate.
    + destruct (completed item); simpl; [discriminate |].
      destruct (JS.Date_parse d) as [t |] eqn:Hp; simpl; [| discriminate].
      intros Hlt. exists d, t. repeat split; try assumption.
      * now apply String.eqb_neq.
      * now apply Z.ltb_lt.
  - intros (d & t & Hd & Hne & Hc & Hp & Hlt).
    unfold isOverdue, JS.and, JS.not, new_Date. rewrite Hd, Hc. simpl.
    assert (He : (d =? EmptyString) = false) by now apply String.eqb_neq.
    rewrite He. simpl. rewrite Hp. simpl. now apply Z.ltb_lt.
Qed.

Lemma overdue_exactly_when_witness :
  (exists d t,
     dueDate milk = Some d /\ d <> EmptyString /\ completed milk = false /\
     JS.Date_parse d = Some t /\ (t < 2000)%Z) /\
  JS.ToBoolean (isOverdue 2000 milk) = true.
Proof.
  assert (Hex : exists d t,
     dueDate milk = Some d /\ d <> EmptyString /\ completed milk = false /\
     JS.Date_parse d = Some t /\ (t < 2000)%Z).
  { exists "1000", 1000%Z. repeat split; try reflexivity. discriminate. }
  split; [exact Hex |].
  exact (proj2 (overdue_exactly_when 2000 milk) Hex).
Defined.
